(** * K6-TMS: the load-test scripts and the summary post-processor

  The repository's own code is three small JavaScript modules run by the
  k6 load generator:

  - [mastergroupingroute.js]: log in, pick up the session cookie, fetch a
    protected page, log the outcome, sleep;
  - [test.js]: one GET, then sleep;
  - [handleSummary.js]: render the end-of-test results to HTML, put the
    company logo and name behind the [<body>] tag, and hand k6 three files.

  The scripts talk to k6 ([http.post], [http.get], [console.log], [sleep]);
  a script is embedded as a finite tree of such calls whose continuations
  receive the HTTP responses, and it is run against an arbitrary server.
  JavaScript strings are [string]s, objects used as maps are [gmap]s, arrays
  are lists, and the status code of a response is an integer. *)

From Stdlib Require Import ZArith Ascii String.
From stdpp Require Import base option list strings gmap pretty.

(** ** JavaScript string primitives used by the scripts *)

Module JsString.

(** [s.length] is [String.length]; string concatenation and template
    literals are [+:+]. *)

Fixpoint take (n : nat) (s : string) : string :=
  match n, s with
  | S n', String c s' => String c (take n' s')
  | _, _ => ""
  end.

Fixpoint drop (n : nat) (s : string) : string :=
  match n, s with
  | S n', String _ s' => drop n' s'
  | _, _ => s
  end.

(** [substring(from, to)] with [from <= to]. *)
Definition substring (from to : nat) (s : string) : string :=
  take (to - from) (drop from s).

(** Does [s] start with [pat]? *)
Fixpoint startsWith (pat s : string) : bool :=
  match pat, s with
  | "", _ => true
  | String a pat', String b s' => if decide (a = b) then startsWith pat' s' else false
  | String _ _, "" => false
  end.

(** ECMAScript's [StringIndexOf(s, pat, 0)]: the least position at which
    [pat] occurs in [s]; [None] stands for the result -1. *)
Fixpoint indexOf (pat s : string) {struct s} : option nat :=
  if startsWith pat s then Some 0
  else match s with
       | "" => None
       | String _ s' => S <$> indexOf pat s'
       end.

(** ECMAScript's [GetSubstitution] for a string pattern (no capture groups,
    no named groups): in the replacement template, [$$] stands for a dollar
    sign, [$&] for the matched text, [$`] for the text before the match and
    [$'] for the text after it; a dollar sign followed by anything else,
    and every other character, stands for itself. *)
Fixpoint GetSubstitution (matched before after template : string) : string :=
  match template with
  | "" => ""
  | String c rest =>
      if decide (c = "$"%char) then
        match rest with
        | String d rest' =>
            if decide (d = "$"%char) then
              "$" +:+ GetSubstitution matched before after rest'
            else if decide (d = "&"%char) then
              matched +:+ GetSubstitution matched before after rest'
            else if decide (d = "`"%char) then
              before +:+ GetSubstitution matched before after rest'
            else if decide (d = "'"%char) then
              after +:+ GetSubstitution matched before after rest'
            else String c (GetSubstitution matched before after rest)
        | "" => String c ""
        end
      else String c (GetSubstitution matched before after rest)
  end.

(** [s.replace(pat, replaceValue)] for a string [pat] and a string
    [replaceValue]: only the first occurrence is replaced; without an
    occurrence the receiver is returned. *)
Definition replace (s pat replaceValue : string) : string :=
  match indexOf pat s with
  | None => s
  | Some pos =>
      let preserved := substring 0 pos s in
      let tail := substring (pos + String.length pat) (String.length s) s in
      preserved +:+ GetSubstitution pat preserved tail replaceValue +:+ tail
  end.

(** The declarative reading of "occurs" and "first occurrence". *)
Definition occurs (pat s : string) : Prop :=
  ∃ pre suf, s = pre +:+ pat +:+ suf.

Definition first_occurrence (pat s pre suf : string) : Prop :=
  s = pre +:+ pat +:+ suf ∧
  ∀ pre' suf', s = pre' +:+ pat +:+ suf' → String.length pre ≤ String.length pre'.

(** Does the character [c] appear in [s]? *)
Fixpoint has_char (c : ascii) (s : string) : bool :=
  match s with
  | "" => false
  | String d s' => if decide (c = d) then true else has_char c s'
  end.

End JsString.

(** ** The k6 scripting interface *)

Module K6.

(** What the scripts hand to [console.log]: a string, or [null] (the body
    of a response that carries none). *)
Inductive jsval : Type :=
| JStr (s : string)
| JNull.

(** One entry of a response's cookie jar. *)
Record Cookie : Type := mkCookie {
  name : string;
  value : string;
  domain : string;
  path : string;
}.

(** The part of k6's [Response] object the scripts read. [cookies] maps a
    cookie name to the array of cookies of that name. *)
Record Response : Type := mkResponse {
  status : Z;
  body : jsval;
  cookies : gmap string (list Cookie);
}.

(** The [params] argument of [http.get]: its [headers] object. *)
Record Params : Type := mkParams {
  headers : gmap string string;
}.

(** A request as it leaves the script. The form fields of a POST keep the
    order in which the object literal lists them; the [params] of a GET are
    optional. *)
Inductive Request : Type :=
| POST (url : string) (form : list (string * string))
| GET (url : string) (params : option Params).

(** A script: a tree of calls into k6. The continuation of an HTTP call
    receives the response; [Throw] is an uncaught JavaScript exception. *)
Inductive Script (A : Type) : Type :=
| Return (a : A)
| Throw (error : string)
| Http (req : Request) (k : Response → Script A)
| ConsoleLog (v : jsval) (k : Script A)
| Sleep (seconds : Z) (k : Script A).
Global Arguments Return {A} a.
Global Arguments Throw {A} error.
Global Arguments Http {A} req k.
Global Arguments ConsoleLog {A} v k.
Global Arguments Sleep {A} seconds k.

Fixpoint bind {A B : Type} (m : Script A) (f : A → Script B) : Script B :=
  match m with
  | Return a => f a
  | Throw e => Throw e
  | Http req k => Http req (λ r, bind (k r) f)
  | ConsoleLog v k => ConsoleLog v (bind k f)
  | Sleep t k => Sleep t (bind k f)
  end.

Global Instance Script_ret : MRet Script := @Return.
Global Instance Script_bind : MBind Script := λ A B f m, bind m f.

Module http.
Definition post (url : string) (form : list (string * string)) : Script Response :=
  Http (POST url form) Return.
Definition get (url : string) (params : option Params) : Script Response :=
  Http (GET url params) Return.
End http.

Module console.
Definition log (v : jsval) : Script unit := ConsoleLog v (Return tt).
End console.

Definition sleep (seconds : Z) : Script unit := Sleep seconds (Return tt).

(** [a[i].value] for an array of cookies: reading a property of the
    [undefined] that an index out of range yields is a [TypeError]. *)
Definition value_at (a : list Cookie) (i : nat) : Script string :=
  match a !! i with
  | Some c => Return (value c)
  | None => Throw "TypeError: Cannot read property 'value' of undefined"
  end.

(** What an observer of one run sees, in order. *)
Inductive Event : Type :=
| Sent (req : Request) (res : Response)
| Logged (v : jsval)
| Slept (seconds : Z).

(** How a run ends. *)
Inductive Outcome (A : Type) : Type :=
| Completed (a : A)
| Uncaught (error : string).
Global Arguments Completed {A} a.
Global Arguments Uncaught {A} error.

(** The world outside the script: a server with a state of its own that
    answers every request and may change state while doing so. *)
Record Server : Type := mkServer {
  state : Type;
  answer : state → Request → Response * state;
}.

(** Run a script against a server: the events, the outcome and the
    server's final state. *)
Fixpoint run {A : Type} (srv : Server) (σ : state srv) (m : Script A)
  : list Event * Outcome A * state srv :=
  match m with
  | Return a => ([], Completed a, σ)
  | Throw e => ([], Uncaught e, σ)
  | Http req k =>
      let '(res, σ') := answer srv σ req in
      let '(evs, out, σ'') := run srv σ' (k res) in
      (Sent req res :: evs, out, σ'')
  | ConsoleLog v k =>
      let '(evs, out, σ') := run srv σ k in
      (Logged v :: evs, out, σ')
  | Sleep t k =>
      let '(evs, out, σ') := run srv σ k in
      (Slept t :: evs, out, σ')
  end.

Definition trace {A : Type} (srv : Server) (σ : state srv) (m : Script A) : list Event :=
  (run srv σ m).1.1.

Definition outcome {A : Type} (srv : Server) (σ : state srv) (m : Script A) : Outcome A :=
  (run srv σ m).1.2.

(** Projections of a trace. *)
Definition requests (evs : list Event) : list Request :=
  omap (λ e, match e with Sent req _ => Some req | _ => None end) evs.

Definition responses (evs : list Event) : list Response :=
  omap (λ e, match e with Sent _ res => Some res | _ => None end) evs.

Definition logs (evs : list Event) : list jsval :=
  omap (λ e, match e with Logged v => Some v | _ => None end) evs.

Definition sleeps (evs : list Event) : list Z :=
  omap (λ e, match e with Slept t => Some t | _ => None end) evs.

Definition is_post (req : Request) : bool :=
  match req with POST _ _ => true | GET _ _ => false end.

Definition is_get (req : Request) : bool :=
  match req with GET _ _ => true | POST _ _ => false end.

Definition count_posts (evs : list Event) : nat :=
  length (filter (λ req, is_post req = true) (requests evs)).

Definition count_gets (evs : list Event) : nat :=
  length (filter (λ req, is_get req = true) (requests evs)).

(** [n] iterations of a script by one virtual user, one after the other;
    an uncaught exception ends the iteration it occurs in, and k6 goes on
    with the next one. *)
Fixpoint iterate (srv : Server) (σ : state srv) (m : Script unit) (n : nat)
  : list (list Event) :=
  match n with
  | 0 => []
  | S n' =>
      let '(evs, _, σ') := run srv σ m in
      evs :: iterate srv σ' m n'
  end.

End K6.

(** ** mastergroupingroute.js *)

Module MasterGroupingRoute.
Import K6.

Definition login_url : string := "https://tms.ttnt.arkamaya.net/login/".
Definition grouping_route_url : string := "https://tms.ttnt.arkamaya.net/grouping_route".

(** The object literal passed to [http.post]. *)
Definition credentials : list (string * string) :=
  [("username", "admin-kasir@ttnt.co.id"); ("password", "123123")].

(** Step 2 of the script: [cookies] is [loginRes.cookies['ci_sessions']]
    ([None] when the jar has no such entry, which JavaScript reads as
    [undefined]); [cookieHeader] starts as the hardcoded session id and is
    overwritten when [cookies && cookies.length > 0]. *)
Definition cookieHeader (loginRes : Response) : Script string :=
  let cookies := K6.cookies loginRes !! "ci_sessions" in
  let cookieHeader := "s67pgo29kq2ue8o2rg90onsf8lsa06ud" in
  match cookies with
  | Some cookies =>
      if bool_decide (0 < length cookies) then
        v ← value_at cookies 0;
        mret ("ci_sessions=" +:+ v)
      else mret cookieHeader
  | None => mret cookieHeader
  end.

(** The status branch at the end of the script. *)
Definition report_status (res : Response) : Script unit :=
  if bool_decide (status res = 200%Z) then
    console.log (JStr "Berhasil akses grouping_route")
  else
    console.log (JStr ("Gagal akses grouping_route. Status: " +:+ pretty (status res)));;
    console.log (body res).

(** [export default function () { ... }] *)
Definition default : Script unit :=
  (* 1. Login *)
  loginRes ← http.post login_url credentials;
  (* 2. Ambil cookie dari response login *)
  cookieHeader ← cookieHeader loginRes;
  (* 3. Kirim request dengan cookie *)
  let headers : gmap string string := {[ "Cookie" := cookieHeader ]} in
  res ← http.get grouping_route_url (Some {| headers := headers |});
  report_status res;;
  sleep 1.

(** The two requests of an iteration, as the server sees them. *)
Definition login_request : Request := POST login_url credentials.

Definition grouping_route_request (cookie : string) : Request :=
  GET grouping_route_url (Some {| headers := {[ "Cookie" := cookie ]} |}).

(** The responses a run obtains from the server [srv] started in state [σ]:
    to the login, and to a GET carrying the Cookie header [cookie]. *)
Definition login_response (srv : Server) (σ : state srv) : Response :=
  (answer srv σ login_request).1.

Definition grouping_route_response (srv : Server) (σ : state srv) (cookie : string) : Response :=
  (answer srv (answer srv σ login_request).2 (grouping_route_request cookie)).1.

(** The Cookie headers of the GET requests of a trace. *)
Definition sent_cookie_headers (evs : list Event) : list (option string) :=
  omap (λ req, match req with
               | GET _ params => Some (params ≫= λ p, headers p !! "Cookie")
               | POST _ _ => None
               end) (requests evs).

(** The shape of one iteration as an observer sees it, with the responses
    [loginRes] and [res] that the trace records: the login; then the GET
    whose Cookie header is the session cookie taken from [loginRes] (the
    value of the first [ci_sessions] cookie behind the cookie name, or the
    hardcoded session id when [loginRes] has none); then the console output
    for the status of [res]; then the pause. *)
Definition linear_flow (evs : list Event) : Prop :=
  ∃ loginRes res,
    evs = Sent login_request loginRes
          :: Sent (grouping_route_request
                     (match cookies loginRes !! "ci_sessions" with
                      | Some (c :: _) => "ci_sessions=" +:+ value c
                      | Some [] | None => "s67pgo29kq2ue8o2rg90onsf8lsa06ud"
                      end)) res
          :: (Logged <$> (if bool_decide (status res = 200%Z)
                          then [JStr "Berhasil akses grouping_route"]
                          else [JStr ("Gagal akses grouping_route. Status: "
                                      +:+ pretty (status res));
                                body res]))
             ++ [Slept 1].

End MasterGroupingRoute.

(** ** test.js *)

Module TestJs.
Import K6.

Definition test_url : string := "https://test.k6.io/".

(** [export default function () { http.get(...); sleep(1); }] *)
Definition default : Script unit :=
  http.get test_url None;;
  sleep 1.

End TestJs.

(** ** handleSummary.js *)

Module HandleSummary.

(** The double quote and the line feed, which the template literal of the
    script contains. *)
Definition dquote : string := String "034"%char "".
Definition newline : string := String "010"%char "".

(** The text of the template literal after its leading [<body>]: a flex
    container with the logo image and the company name. *)
Definition logo_and_title : string :=
  newline +:+
  "      <div style=" +:+ dquote +:+ "display:flex; align-items:center; margin-bottom:20px;" +:+ dquote +:+ ">" +:+
  newline +:+
  "        <img src=" +:+ dquote +:+ "./logo/ttnt.png" +:+ dquote +:+
  " alt=" +:+ dquote +:+ "Logo" +:+ dquote +:+
  " style=" +:+ dquote +:+ "width:100px; margin-right:10px;" +:+ dquote +:+ ">" +:+
  newline +:+
  "        <span style=" +:+ dquote +:+ "font-size:1.5em; font-weight:bold;" +:+ dquote +:+ ">" +:+
  "PT. Toyota Tsusho Nusa Transport</span>" +:+
  newline +:+
  "      </div>" +:+
  newline +:+
  "  ".

(** The two arguments of [report.replace]. *)
Definition body_tag : string := "<body>".
Definition replaceValue : string := body_tag +:+ logo_and_title.

(** The pieces of the inserted text that the reader of the report sees. *)
Definition logo_img : string :=
  "<img src=" +:+ dquote +:+ "./logo/ttnt.png" +:+ dquote.
Definition title : string := "PT. Toyota Tsusho Nusa Transport".

(** The second argument of [textSummary]. *)
Record TextSummaryOptions : Type := mkTextSummaryOptions {
  indent : string;
  enableColors : bool;
}.

Section handleSummary.

(** The results object k6 passes in, and the three library functions the
    script applies to it: k6-reporter's [htmlReport], the built-in
    [JSON.stringify] and k6-summary's [textSummary]. Their code is not part
    of the repository; each is taken as a function of the results object. *)
Variable Data : Type.
Variable htmlReport : Data → string.
Variable JSON_stringify : Data → string.
Variable textSummary : Data → TextSummaryOptions → string.

(** [export function handleSummary(data) { ... }]; the returned object maps
    file names (and [stdout]) to contents. *)
Definition handleSummary (data : Data) : gmap string string :=
  let report := htmlReport data in
  let report := JsString.replace report body_tag replaceValue in
  {[ "summary.html" := report;
     "summary.json" := JSON_stringify data;
     "stdout" := textSummary data {| indent := " "; enableColors := true |} ]}.

End handleSummary.

End HandleSummary.

(** ** Concrete servers and results, for running the scripts *)

Module Examples.
Import K6.

Definition session : Cookie :=
  {| name := "ci_sessions"; value := "abc123";
     domain := "tms.ttnt.arkamaya.net"; path := "/" |}.

Definition has_cookie (params : option Params) (v : string) : bool :=
  bool_decide ((params ≫= λ p, headers p !! "Cookie") = Some v).

(** A server that hands out one session at login and serves the page only
    to requests that carry it; its state counts the requests answered. *)
Definition tms_server : Server :=
  {| state := nat;
     answer n req :=
       match req with
       | POST _ _ =>
           ({| status := 200; body := JStr "welcome";
               cookies := {[ "ci_sessions" := [session] ]} |}, S n)
       | GET _ params =>
           if has_cookie params "ci_sessions=abc123"
           then ({| status := 200; body := JStr "<html>routes</html>"; cookies := ∅ |}, S n)
           else ({| status := 403; body := JStr "forbidden"; cookies := ∅ |}, S n)
       end |}.

(** A server whose login sets no cookie and which turns every GET away. *)
Definition cookieless_server : Server :=
  {| state := unit;
     answer _ req :=
       match req with
       | POST _ _ => ({| status := 401; body := JNull; cookies := ∅ |}, tt)
       | GET _ _ => ({| status := 403; body := JStr "forbidden"; cookies := ∅ |}, tt)
       end |}.

(** A results object reduced to its rendered page, and stand-ins for the
    three library functions over it. *)
Definition page : string := "<html><body><h1>K6</h1><body></body></html>".
Definition page_without_body : string := "<html><h1>K6</h1></html>".
Definition render (data : string) : string := data.
Definition stringify (data : string) : string := "{}".
Definition summarize (data : string) (opts : HandleSummary.TextSummaryOptions) : string :=
  HandleSummary.indent opts +:+ "checks: 0".

End Examples.

(** ** What an observer reads off the login response and off a trace *)

Module Observations.
Import K6.

(** [cookies[0].value] for the [ci_sessions] entry of the login response,
    when the entry is there and not empty. *)
Definition first_session_value (loginRes : Response) : option string :=
  value <$> (cookies loginRes !! "ci_sessions" ≫= head).

(** The status code of the last response of a trace. *)
Definition last_status (evs : list Event) : option Z :=
  status <$> last (responses evs).

(** A login that fails with a server error and still sets a session cookie,
    for another host and path than [Examples.session]. *)
Definition other_session : Cookie :=
  {| name := "ci_sessions"; value := "abc123"; domain := "localhost"; path := "/tms" |}.

Definition failing_login_server : Server :=
  {| state := unit;
     answer _ req :=
       match req with
       | POST _ _ =>
           ({| status := 500; body := JStr "Internal Server Error";
               cookies := {[ "ci_sessions" := [other_session; Examples.session];
                             "lang" := [] ]} |}, tt)
       | GET _ _ => ({| status := 403; body := JNull; cookies := ∅ |}, tt)
       end |}.

End Observations.

(** ** go-git, utils/merkletrie/index/node_test.go: comparing node hashes *)

Module NodeTest.

(** [noder.Hasher]: anything with a [Hash() []byte] method. *)
Class Hasher (A : Type) := Hash : A → list Byte.byte.

Module bytes.
(** [bytes.Equal]: the same length and the same bytes; a nil slice is an
    empty slice. *)
Fixpoint Equal (a b : list Byte.byte) : bool :=
  match a, b with
  | [], [] => true
  | x :: a', y :: b' => Byte.eqb x y && Equal a' b'
  | _, _ => false
  end.
End bytes.

(** [var empty = make([]byte, 24)]: twenty-four zero bytes. *)
Definition empty : list Byte.byte := replicate 24 Byte.x00.

(** [func isEquals(a, b noder.Hasher) bool] *)
Definition isEquals {A B : Type} `{Hasher A, Hasher B} (a : A) (b : B) : bool :=
  if bytes.Equal (Hash a) empty || bytes.Equal (Hash b) empty then false
  else bytes.Equal (Hash a) (Hash b).

(** A hasher for running [isEquals]: a node that is its own hash. *)
Global Instance raw_hasher : Hasher (list Byte.byte) := λ h, h.

Definition sha : list Byte.byte :=
  [Byte.x8a; Byte.xb6; Byte.x86; Byte.xea; Byte.xfe; Byte.xb1; Byte.xf4; Byte.x47;
   Byte.x02; Byte.x73; Byte.x8c; Byte.x8b; Byte.x0f; Byte.x24; Byte.xf2; Byte.x56;
   Byte.x7c; Byte.x36; Byte.xda; Byte.x6d; Byte.x00; Byte.x00; Byte.x81; Byte.xa4].

End NodeTest.

(** * Properties *)

(** ** Strings: occurrences, [indexOf] and [replace] *)

Module JsStringFacts.
Import JsString.

Lemma app_cons a s t : String a s +:+ t = String a (s +:+ t).
Proof. reflexivity. Qed.

Lemma app_nil_l s : "" +:+ s = s.
Proof. reflexivity. Qed.

Lemma app_nil_r s : s +:+ "" = s.
Proof. induction s as [|a s IH]; [done|]. by rewrite app_cons, IH. Qed.

Lemma app_assoc s t u : (s +:+ t) +:+ u = s +:+ t +:+ u.
Proof. induction s as [|a s IH]; [done|]. by rewrite !app_cons, IH. Qed.

Lemma length_app s t : String.length (s +:+ t) = String.length s + String.length t.
Proof. induction s as [|a s IH]; [done|]. rewrite app_cons. simpl. by rewrite IH. Qed.

Lemma take_app_length pre s : take (String.length pre) (pre +:+ s) = pre.
Proof.
  induction pre as [|a pre IH]; [by destruct s|].
  rewrite app_cons. simpl. by rewrite IH.
Qed.

Lemma take_ge n s : String.length s ≤ n → take n s = s.
Proof.
  revert n. induction s as [|a s IH]; intros [|n] Hn; simpl in *; try done; [lia|].
  rewrite IH; [done|lia].
Qed.

Lemma drop_app_length pre s : drop (String.length pre) (pre +:+ s) = s.
Proof.
  induction pre as [|a pre IH]; [by destruct s|].
  rewrite app_cons. simpl. by rewrite IH.
Qed.

Lemma drop_add n m s : drop (n + m) s = drop m (drop n s).
Proof.
  revert s. induction n as [|n IH]; intros s; [done|].
  destruct s as [|a s]; simpl; [by destruct m|]. apply IH.
Qed.

Lemma take_app_app pre pat x :
  take (String.length pre + String.length pat) (pre +:+ pat +:+ x) = pre +:+ pat.
Proof. rewrite <-length_app, <-app_assoc. apply take_app_length. Qed.

Lemma drop_app_app pre pat x :
  drop (String.length pre + String.length pat) (pre +:+ pat +:+ x) = x.
Proof. rewrite <-length_app, <-app_assoc. apply drop_app_length. Qed.

(** Two splittings of one string at the same position are the same. *)
Lemma app_inv_length pre pre' x x' :
  pre +:+ x = pre' +:+ x' → String.length pre = String.length pre' →
  pre = pre' ∧ x = x'.
Proof.
  revert pre'. induction pre as [|a pre IH]; intros [|b pre'] Heq Hlen;
    simpl in Hlen; try done.
  rewrite !app_cons in Heq. injection Heq as -> Heq.
  destruct (IH pre' Heq) as [-> ->]; [lia|done].
Qed.

Lemma startsWith_app pat suf : startsWith pat (pat +:+ suf) = true.
Proof.
  induction pat as [|a pat IH]; [done|].
  rewrite app_cons. simpl. by rewrite decide_True.
Qed.

Lemma startsWith_inv pat s : startsWith pat s = true → ∃ suf, s = pat +:+ suf.
Proof.
  revert s. induction pat as [|a pat IH]; intros s H; [by exists s|].
  destruct s as [|b s]; simpl in H; [done|].
  case_decide as Hab; [subst b|done].
  destruct (IH s H) as [suf ->]. by exists suf.
Qed.

Lemma startsWith_false pat s suf : startsWith pat s = false → s ≠ pat +:+ suf.
Proof. intros H ->. by rewrite startsWith_app in H. Qed.

(** A position found by [indexOf] is the first occurrence. *)
Lemma indexOf_Some pat s i :
  indexOf pat s = Some i →
  ∃ pre suf, first_occurrence pat s pre suf ∧ String.length pre = i.
Proof.
  revert i. induction s as [|c s IH]; intros i; simpl.
  - destruct (startsWith pat "") eqn:Hsw; [|done].
    intros [= <-]. apply startsWith_inv in Hsw as [suf Hsuf].
    exists "", suf. repeat split; [done|]. intros; simpl; lia.
  - destruct (startsWith pat (String c s)) eqn:Hsw.
    + intros [= <-]. apply startsWith_inv in Hsw as [suf Hsuf].
      exists "", suf. repeat split; [done|]. intros; simpl; lia.
    + destruct (indexOf pat s) as [j|] eqn:Hj; simpl; [|done].
      intros [= <-]. destruct (IH j eq_refl) as (pre & suf & [Hs Hmin] & Hlen).
      exists (String c pre), suf. repeat split.
      * by rewrite app_cons, <-Hs.
      * intros [|d pre'] suf' Heq.
        { by apply startsWith_false with (suf := suf') in Hsw. }
        rewrite app_cons in Heq. injection Heq as -> Heq.
        simpl. apply Hmin in Heq. lia.
      * simpl. by rewrite Hlen.
Qed.

(** When [indexOf] finds nothing, there is no occurrence. *)
Lemma indexOf_None pat s : indexOf pat s = None → ¬ occurs pat s.
Proof.
  induction s as [|c s IH]; simpl.
  - destruct (startsWith pat "") eqn:Hsw; [done|].
    intros _ ([|d pre] & suf & Heq); [|done].
    by apply startsWith_false with (suf := suf) in Hsw.
  - destruct (startsWith pat (String c s)) eqn:Hsw; [done|].
    destruct (indexOf pat s) eqn:Hj; simpl; [done|].
    intros _ ([|d pre] & suf & Heq).
    + by apply startsWith_false with (suf := suf) in Hsw.
    + rewrite app_cons in Heq. injection Heq as -> Heq.
      apply IH; [done|]. by exists pre, suf.
Qed.

(** [indexOf] finds the first occurrence whenever there is one. *)
Lemma indexOf_first_occurrence pat s pre suf :
  first_occurrence pat s pre suf → indexOf pat s = Some (String.length pre).
Proof.
  intros [Hs Hmin]. destruct (indexOf pat s) as [i|] eqn:Hi.
  - apply indexOf_Some in Hi as (pre' & suf' & [Hs' Hmin'] & <-).
    f_equal. apply Nat.le_antisymm; eauto.
  - apply indexOf_None in Hi. destruct Hi. by exists pre, suf.
Qed.

Lemma occurs_indexOf pat s : occurs pat s ↔ is_Some (indexOf pat s).
Proof.
  split.
  - intros Hocc. destruct (indexOf pat s) eqn:Hi; [done|].
    by apply indexOf_None in Hi.
  - intros [i Hi]. apply indexOf_Some in Hi as (pre & suf & [Hs _] & _).
    by exists pre, suf.
Qed.

Lemma occurs_first pat s :
  occurs pat s → ∃ pre suf, first_occurrence pat s pre suf.
Proof.
  intros [i Hi]%occurs_indexOf.
  apply indexOf_Some in Hi as (pre & suf & Hfirst & _). eauto.
Qed.

(** What occurs in a part occurs in the whole. *)
Lemma occurs_app x s pre suf : occurs x s → occurs x (pre +:+ s +:+ suf).
Proof.
  intros (p & q & ->). exists (pre +:+ p), (q +:+ suf).
  by rewrite !app_assoc.
Qed.

(** Occurrence in a given string is settled by running [indexOf]. *)
Ltac occurs_by_computation :=
  apply occurs_indexOf; eexists; vm_compute; reflexivity.

(** A template without a dollar sign stands for itself. *)
Lemma GetSubstitution_literal matched before after template :
  has_char "$" template = false →
  GetSubstitution matched before after template = template.
Proof.
  induction template as [|c rest IH]; [done|]. simpl.
  destruct (decide ("$"%char = c)) as [<-|Hc]; [done|].
  intros Hrest. rewrite decide_False by done. by rewrite IH.
Qed.

(** [replace] on a string in which the pattern occurs: the text before the
    first occurrence and the text after it are kept as they are. *)
Lemma replace_first_occurrence s pat replaceValue pre suf :
  first_occurrence pat s pre suf →
  has_char "$" replaceValue = false →
  replace s pat replaceValue = pre +:+ replaceValue +:+ suf.
Proof.
  intros Hfirst Hlit. unfold replace.
  rewrite (indexOf_first_occurrence _ _ _ _ Hfirst).
  destruct Hfirst as [-> _]. cbv zeta. unfold substring.
  rewrite GetSubstitution_literal by done.
  rewrite Nat.sub_0_r. change (drop 0 ?x) with x. rewrite take_app_length.
  rewrite drop_add, drop_app_length, drop_app_length.
  rewrite take_ge; [done|]. rewrite !length_app. lia.
Qed.

(** [replace] on a string in which the pattern does not occur. *)
Lemma replace_absent s pat replaceValue :
  ¬ occurs pat s → replace s pat replaceValue = s.
Proof.
  intros Hno. unfold replace. destruct (indexOf pat s) eqn:Hi; [|done].
  destruct Hno. apply occurs_indexOf. by rewrite Hi.
Qed.

End JsStringFacts.

(** ** Running scripts *)

Module K6Facts.
Import K6.

(** The run of a sequence: the events of the first part, then, unless it
    threw, those of the second part started in the state the first left. *)
Lemma run_bind {A B} (srv : Server) (σ : state srv) (m : Script A) (f : A → Script B) :
  run srv σ (bind m f) =
    let '(evs, out, σ') := run srv σ m in
    match out with
    | Completed a =>
        let '(evs', out', σ'') := run srv σ' (f a) in (evs ++ evs', out', σ'')
    | Uncaught e => (evs, Uncaught e, σ')
    end.
Proof.
  revert σ. induction m as [a|e|req k IH|v k IH|t k IH]; intros σ; simpl.
  - by destruct (run srv σ (f a)) as [[evs out] σ'].
  - done.
  - destruct (answer srv σ req) as [res σ1]. rewrite IH.
    destruct (run srv σ1 (k res)) as [[evs [a|e]] σ2]; [|done].
    by destruct (run srv σ2 (f a)) as [[evs' out'] σ3].
  - rewrite IH. destruct (run srv σ k) as [[evs [a|e]] σ1]; [|done].
    by destruct (run srv σ1 (f a)) as [[evs' out'] σ2].
  - rewrite IH. destruct (run srv σ k) as [[evs [a|e]] σ1]; [|done].
    by destruct (run srv σ1 (f a)) as [[evs' out'] σ2].
Qed.

Lemma requests_app evs evs' : requests (evs ++ evs') = requests evs ++ requests evs'.
Proof. apply omap_app. Qed.

Lemma requests_logged (vs : list jsval) : requests (Logged <$> vs) = [].
Proof. by induction vs. Qed.

Lemma logs_logged (vs : list jsval) : logs (Logged <$> vs) = vs.
Proof. induction vs as [|v vs IH]; [done|]. by rewrite <-IH at 2. Qed.

Lemma length_iterate srv σ m n : length (iterate srv σ m n) = n.
Proof.
  revert σ. induction n as [|n IH]; intros σ; simpl; [done|].
  destruct (run srv σ m) as [[evs out] σ']. simpl. by rewrite IH.
Qed.

(** What holds of every run, from every server state, holds of every
    iteration. *)
Lemma Forall_iterate (P : list Event → Prop) srv (m : Script unit) :
  (∀ σ, P (trace srv σ m)) → ∀ n σ, Forall P (iterate srv σ m n).
Proof.
  intros HP n. induction n as [|n IH]; intros σ; simpl; [constructor|].
  specialize (HP σ). unfold trace in HP.
  destruct (run srv σ m) as [[evs out] σ']. constructor; [done|apply IH].
Qed.

End K6Facts.

(** ** mastergroupingroute.js *)

Module MasterGroupingRouteFacts.
Import K6 K6Facts MasterGroupingRoute.

(** Step 2 never throws: the length test guards the array access. *)
Lemma cookieHeader_returns loginRes :
  cookieHeader loginRes =
    Return (match cookies loginRes !! "ci_sessions" with
            | Some (c :: _) => "ci_sessions=" +:+ value c
            | Some [] | None => "s67pgo29kq2ue8o2rg90onsf8lsa06ud"
            end).
Proof.
  unfold cookieHeader.
  by destruct (cookies loginRes !! "ci_sessions") as [[|c cs]|].
Qed.

(** The status branch only logs. *)
Lemma run_report_status srv σ res :
  run srv σ (report_status res) =
    (Logged <$> (if bool_decide (status res = 200%Z)
                 then [JStr "Berhasil akses grouping_route"]
                 else [JStr ("Gagal akses grouping_route. Status: " +:+ pretty (status res));
                       body res]),
     Completed tt, σ).
Proof. unfold report_status. by case_bool_decide. Qed.

(** One run of the script, in full. *)
Lemma run_default srv σ :
  ∃ cookie σ',
    let loginRes := login_response srv σ in
    let res := grouping_route_response srv σ cookie in
    cookieHeader loginRes = Return cookie ∧
    run srv σ default =
      (Sent login_request loginRes
       :: Sent (grouping_route_request cookie) res
       :: (Logged <$> (if bool_decide (status res = 200%Z)
                       then [JStr "Berhasil akses grouping_route"]
                       else [JStr ("Gagal akses grouping_route. Status: "
                                   +:+ pretty (status res));
                             body res]))
          ++ [Slept 1],
       Completed tt, σ').
Proof.
  unfold login_response, grouping_route_response.
  destruct (answer srv σ login_request) as [loginRes σ1] eqn:Hlogin.
  cbn [fst snd].
  pose proof (cookieHeader_returns loginRes) as Hcookie.
  set (cookie := match cookies loginRes !! "ci_sessions" with
                 | Some (c :: _) => "ci_sessions=" +:+ value c
                 | _ => "s67pgo29kq2ue8o2rg90onsf8lsa06ud"
                 end) in Hcookie.
  destruct (answer srv σ1 (grouping_route_request cookie)) as [res σ2] eqn:Hget.
  exists cookie, σ2. cbn [fst snd]. split; [done|].
  unfold default, mbind, Script_bind. cbv beta.
  rewrite run_bind. unfold http.post. cbn [run].
  fold login_request. rewrite Hlogin. cbv beta iota.
  rewrite run_bind, Hcookie. cbn [run]. cbv beta iota.
  rewrite run_bind. unfold http.get. cbn [run].
  fold (grouping_route_request cookie). rewrite Hget. cbv beta iota.
  rewrite run_bind, run_report_status. by cbn.
Qed.

(** The projections of a trace of that shape. *)
Lemma requests_flow r1 x r2 y vs t :
  requests (Sent r1 x :: Sent r2 y :: (Logged <$> vs) ++ [Slept t]) = [r1; r2].
Proof.
  change (requests (Sent r1 x :: Sent r2 y :: (Logged <$> vs) ++ [Slept t]))
    with (r1 :: r2 :: requests ((Logged <$> vs) ++ [Slept t])).
  by rewrite requests_app, requests_logged.
Qed.

Lemma logs_flow r1 x r2 y vs t :
  logs (Sent r1 x :: Sent r2 y :: (Logged <$> vs) ++ [Slept t]) = vs.
Proof.
  change (logs (Sent r1 x :: Sent r2 y :: (Logged <$> vs) ++ [Slept t]))
    with (logs ((Logged <$> vs) ++ [Slept t])).
  unfold logs at 1. rewrite omap_app. fold (logs (Logged <$> vs)).
  rewrite logs_logged. apply app_nil_r.
Qed.

Lemma sleeps_flow r1 x r2 y vs t :
  sleeps (Sent r1 x :: Sent r2 y :: (Logged <$> vs) ++ [Slept t]) = [t].
Proof.
  change (sleeps (Sent r1 x :: Sent r2 y :: (Logged <$> vs) ++ [Slept t]))
    with (sleeps ((Logged <$> vs) ++ [Slept t])).
  unfold sleeps. rewrite omap_app.
  replace (omap _ (Logged <$> vs)) with (@nil Z); [done|]. by induction vs.
Qed.

Lemma trace_default srv σ :
  ∃ cookie,
    let loginRes := login_response srv σ in
    let res := grouping_route_response srv σ cookie in
    cookieHeader loginRes = Return cookie ∧
    outcome srv σ default = Completed tt ∧
    trace srv σ default =
      Sent login_request loginRes
      :: Sent (grouping_route_request cookie) res
      :: (Logged <$> (if bool_decide (status res = 200%Z)
                      then [JStr "Berhasil akses grouping_route"]
                      else [JStr ("Gagal akses grouping_route. Status: "
                                  +:+ pretty (status res));
                            body res]))
         ++ [Slept 1].
Proof.
  destruct (run_default srv σ) as (cookie & σ' & Hcookie & Hrun).
  exists cookie. unfold outcome, trace. by rewrite Hrun.
Qed.

Lemma default_linear_flow srv σ : linear_flow (trace srv σ default).
Proof.
  destruct (trace_default srv σ) as (cookie & Hcookie & _ & ->).
  rewrite cookieHeader_returns in Hcookie. injection Hcookie as <-.
  by eexists _, _.
Qed.

Lemma default_counts srv σ :
  count_posts (trace srv σ default) = 1 ∧ count_gets (trace srv σ default) = 1.
Proof.
  destruct (trace_default srv σ) as (cookie & _ & _ & ->).
  unfold count_posts, count_gets. by rewrite requests_flow.
Qed.

(** C1. The Cookie header of the protected GET: when the login response's
    jar has a non-empty [ci_sessions] entry, the header is [ci_sessions=]
    followed by the value of the first cookie of that entry; when the entry
    is missing or empty, the header is the hardcoded session id. *)
Theorem cookie_header_fallback (srv : Server) (σ : state srv) :
  let cookie :=
    match cookies (login_response srv σ) !! "ci_sessions" with
    | Some (c :: _) => "ci_sessions=" +:+ value c
    | Some [] | None => "s67pgo29kq2ue8o2rg90onsf8lsa06ud"
    end in
  requests (trace srv σ default) = [login_request; grouping_route_request cookie] ∧
  sent_cookie_headers (trace srv σ default) = [Some cookie].
Proof.
  destruct (trace_default srv σ) as (cookie & Hcookie & _ & Htrace).
  rewrite cookieHeader_returns in Hcookie. injection Hcookie as Hcookie.
  cbv zeta. rewrite Hcookie. unfold sent_cookie_headers.
  rewrite Htrace, requests_flow. split; [done|].
  simpl. by rewrite lookup_singleton_eq.
Qed.

(** C2. Every iteration is the same three steps in the same order. With
    [loginRes] the server's answer to the login POST, [cookie] the session
    cookie captured from it (the value of the first [ci_sessions] cookie
    behind the cookie name, or the hardcoded session id when there is none)
    and [res] the server's answer to the GET carrying [cookie], the trace of
    a run is: the login POST, the GET with [cookie], the console output for
    the status of [res], the pause; nothing else. No request is made a
    second time, the script always runs to its end, and each of any number
    of iterations has this shape. *)
Theorem default_three_steps (srv : Server) (σ : state srv) (n : nat) :
  let loginRes := login_response srv σ in
  let cookie :=
    match cookies loginRes !! "ci_sessions" with
    | Some (c :: _) => "ci_sessions=" +:+ value c
    | Some [] | None => "s67pgo29kq2ue8o2rg90onsf8lsa06ud"
    end in
  let res := grouping_route_response srv σ cookie in
  trace srv σ default =
    Sent login_request loginRes
    :: Sent (grouping_route_request cookie) res
    :: (Logged <$> (if bool_decide (status res = 200%Z)
                    then [JStr "Berhasil akses grouping_route"]
                    else [JStr ("Gagal akses grouping_route. Status: "
                                +:+ pretty (status res));
                          body res]))
       ++ [Slept 1] ∧
  outcome srv σ default = Completed tt ∧
  Forall linear_flow (iterate srv σ default n).
Proof.
  cbv zeta. split_and!.
  - destruct (trace_default srv σ) as (cookie & Hcookie & _ & Htrace).
    rewrite cookieHeader_returns in Hcookie. injection Hcookie as Hcookie.
    by rewrite Hcookie.
  - by destruct (trace_default srv σ) as (cookie & _ & -> & _).
  - apply Forall_iterate. apply default_linear_flow.
Qed.

(** C5. The status branch: with the response [res] to the GET, the script
    logs the success message alone when [res.status] is 200, and otherwise
    the failure message ending in the status code, followed by the response
    body. The first thing logged is the success message exactly when the
    status is 200. In both cases there are two requests and one pause of one
    second, and the script returns normally. *)
Theorem status_branch_logs (srv : Server) (σ : state srv) :
  ∃ cookie,
    let res := grouping_route_response srv σ cookie in
    let logged := logs (trace srv σ default) in
    requests (trace srv σ default) = [login_request; grouping_route_request cookie] ∧
    logged = (if bool_decide (status res = 200%Z)
              then [JStr "Berhasil akses grouping_route"]
              else [JStr ("Gagal akses grouping_route. Status: " +:+ pretty (status res));
                    body res]) ∧
    (head logged = Some (JStr "Berhasil akses grouping_route") ↔ status res = 200%Z) ∧
    sleeps (trace srv σ default) = [1%Z] ∧
    outcome srv σ default = Completed tt.
Proof.
  destruct (trace_default srv σ) as (cookie & _ & Hout & Htrace).
  exists cookie. cbv zeta. rewrite Htrace, requests_flow, logs_flow, sleeps_flow.
  repeat split; try done; by case_bool_decide.
Qed.

(** C6. Whatever the server answers, an iteration sends exactly one POST
    and exactly one GET; so does each of any number of iterations run one
    after the other. *)
Theorem one_post_one_get (srv : Server) (σ : state srv) (n : nat) :
  count_posts (trace srv σ default) = 1 ∧
  count_gets (trace srv σ default) = 1 ∧
  length (iterate srv σ default n) = n ∧
  Forall (λ evs, count_posts evs = 1 ∧ count_gets evs = 1) (iterate srv σ default n).
Proof.
  destruct (default_counts srv σ) as [Hp Hg]. repeat split; try done.
  - apply length_iterate.
  - apply (Forall_iterate (λ evs, count_posts evs = 1 ∧ count_gets evs = 1)).
    apply default_counts.
Qed.

(** C8. The two branches give headers of different shapes: with a
    [ci_sessions] cookie in the login response the header starts with the
    cookie name and an equals sign; the fallback is the bare session id,
    which neither starts with [ci_sessions=] nor contains an equals sign at
    all. No cookie value makes the two coincide. *)
Theorem cookie_header_shapes (srv : Server) (σ : state srv) :
  (∃ cookie,
     sent_cookie_headers (trace srv σ default) = [Some cookie] ∧
     match cookies (login_response srv σ) !! "ci_sessions" with
     | Some (c :: _) =>
         cookie = "ci_sessions=" +:+ value c ∧
         JsString.startsWith "ci_sessions=" cookie = true
     | Some [] | None =>
         cookie = "s67pgo29kq2ue8o2rg90onsf8lsa06ud" ∧
         JsString.startsWith "ci_sessions=" cookie = false ∧
         JsString.has_char "=" cookie = false
     end) ∧
  ∀ v, "ci_sessions=" +:+ v ≠ "s67pgo29kq2ue8o2rg90onsf8lsa06ud".
Proof.
  split; [|done].
  destruct (trace_default srv σ) as (cookie & Hcookie & _ & Htrace).
  rewrite cookieHeader_returns in Hcookie. injection Hcookie as Hcookie.
  exists cookie. split.
  - unfold sent_cookie_headers. rewrite Htrace, requests_flow.
    simpl. by rewrite lookup_singleton_eq.
  - destruct (cookies (login_response srv σ) !! "ci_sessions") as [[|c cs]|];
      subst cookie; repeat split; done.
Qed.

End MasterGroupingRouteFacts.

(** ** test.js *)

Module TestJsFacts.
Import K6 TestJs.

(** One run: the GET, whose response is whatever the server answers and is
    not looked at, then the pause. *)
Lemma run_test_default (srv : Server) (σ : state srv) :
  run srv σ default =
    ([Sent (GET test_url None) (answer srv σ (GET test_url None)).1; Slept 1],
     Completed tt, (answer srv σ (GET test_url None)).2).
Proof.
  unfold default, mbind, Script_bind. cbv beta. rewrite K6Facts.run_bind.
  unfold http.get. cbn [run]. by destruct (answer srv σ (GET test_url None)).
Qed.

End TestJsFacts.

(** ** handleSummary.js *)

Module HandleSummaryFacts.
Import JsString JsStringFacts HandleSummary.

(** First occurrences can be checked by running [indexOf]. *)
Lemma first_occurrence_by_indexOf pat s pre suf :
  s = pre +:+ pat +:+ suf → indexOf pat s = Some (String.length pre) →
  first_occurrence pat s pre suf.
Proof.
  intros Hs Hi. split; [done|]. intros pre' suf' Hs'.
  apply indexOf_Some in Hi as (p & q & [_ Hmin] & <-). eauto.
Qed.

Lemma absent_by_indexOf pat s : indexOf pat s = None → ¬ occurs pat s.
Proof. apply indexOf_None. Qed.

(** The template literal has no dollar sign, so [replace] inserts it as it
    is written. *)
Lemma replaceValue_literal : has_char "$" replaceValue = false.
Proof. reflexivity. Qed.

Lemma logo_in_logo_and_title : occurs logo_img logo_and_title.
Proof. occurs_by_computation. Qed.

Lemma title_in_logo_and_title : occurs title logo_and_title.
Proof. occurs_by_computation. Qed.

Section handleSummary.
Variable Data : Type.
Variable htmlReport : Data → string.
Variable JSON_stringify : Data → string.
Variable textSummary : Data → TextSummaryOptions → string.

Local Abbreviation handleSummary :=
  (handleSummary Data htmlReport JSON_stringify textSummary).

Lemma summary_html data :
  handleSummary data !! "summary.html" =
    Some (replace (htmlReport data) body_tag replaceValue).
Proof. unfold HandleSummary.handleSummary. by simplify_map_eq. Qed.

Lemma summary_json data :
  handleSummary data !! "summary.json" = Some (JSON_stringify data).
Proof. unfold HandleSummary.handleSummary. by simplify_map_eq. Qed.

Lemma summary_stdout data :
  handleSummary data !! "stdout" =
    Some (textSummary data {| indent := " "; enableColors := true |}).
Proof. unfold HandleSummary.handleSummary. by simplify_map_eq. Qed.

(** C3. For every results object, [handleSummary] returns an object with
    exactly the three keys [summary.html], [summary.json] and [stdout]. The
    HTML report is the page rendered by the templating library with the
    logo and the company name put into its body: split at its first
    [<body>] tag, the report is the text up to and including the tag, the
    block with the logo image and the company name, and the text behind the
    tag (a rendered page that has no [<body>] tag is returned as rendered).
    The JSON dump is the JSON text of the results, and the text summary is
    made with a one-space indent and colours on. *)
Theorem handleSummary_three_artifacts (data : Data) :
  let out := handleSummary data in
  let rendered := htmlReport data in
  dom out = ({[ "summary.html"; "summary.json"; "stdout" ]} : gset string) ∧
  size out = 3 ∧
  (∃ html,
     out !! "summary.html" = Some html ∧
     ((∃ pre suf,
         first_occurrence "<body>" rendered pre suf ∧
         html = pre +:+ "<body>" +:+ logo_and_title +:+ suf ∧
         occurs logo_img html ∧ occurs title html)
      ∨ (¬ occurs "<body>" rendered ∧ html = rendered))) ∧
  out !! "summary.json" = Some (JSON_stringify data) ∧
  out !! "stdout" = Some (textSummary data {| indent := " "; enableColors := true |}) ∧
  occurs logo_img logo_and_title ∧ occurs title logo_and_title.
Proof.
  cbv zeta. split_and!.
  - unfold HandleSummary.handleSummary. cbv zeta.
    rewrite !dom_insert_L, dom_singleton_L. set_solver.
  - unfold HandleSummary.handleSummary. cbv zeta.
    rewrite !map_size_insert_None, map_size_singleton; [done|by simplify_map_eq..].
  - eexists. split; [apply summary_html|].
    destruct (indexOf "<body>" (htmlReport data)) as [i|] eqn:Hi.
    + left. apply indexOf_Some in Hi as (pre & suf & Hfirst & _).
      exists pre, suf. split; [done|].
      rewrite (replace_first_occurrence _ body_tag _ _ _ Hfirst replaceValue_literal).
      unfold replaceValue, body_tag. rewrite app_assoc. split; [done|].
      rewrite <-(app_assoc pre "<body>").
      split; apply occurs_app.
      * apply logo_in_logo_and_title.
      * apply title_in_logo_and_title.
    + right. apply indexOf_None in Hi. split; [done|]. by apply replace_absent.
  - apply summary_json.
  - apply summary_stdout.
  - apply logo_in_logo_and_title.
  - apply title_in_logo_and_title.
Qed.

(** C4. When the rendered page has a [<body>] tag, the HTML report is that
    page with the logo and the company name put right behind the first such
    tag: the text up to and including the tag, and the text behind it, are
    those of the rendered page, character for character. *)
Theorem html_injection (data : Data) (pre suf : string) :
  first_occurrence "<body>" (htmlReport data) pre suf →
  ∃ html,
    handleSummary data !! "summary.html" = Some html ∧
    html = pre +:+ "<body>" +:+ logo_and_title +:+ suf ∧
    take (String.length pre + 6) html = take (String.length pre + 6) (htmlReport data) ∧
    drop (String.length pre + 6 + String.length logo_and_title) html
      = drop (String.length pre + 6) (htmlReport data) ∧
    String.length html = String.length (htmlReport data) + String.length logo_and_title ∧
    occurs logo_img logo_and_title ∧ occurs title logo_and_title.
Proof.
  intros Hfirst.
  exists (pre +:+ "<body>" +:+ logo_and_title +:+ suf).
  assert (Hhtml : replace (htmlReport data) body_tag replaceValue
                  = pre +:+ "<body>" +:+ logo_and_title +:+ suf).
  { rewrite (replace_first_occurrence _ body_tag _ _ _ Hfirst replaceValue_literal).
    unfold replaceValue, body_tag. by rewrite app_assoc. }
  destruct Hfirst as [Hreport _]. rewrite Hreport.
  change 6 with (String.length "<body>").
  split_and!.
  - by rewrite summary_html, Hhtml.
  - done.
  - by rewrite !take_app_app.
  - rewrite drop_add, !drop_app_app. apply drop_app_length.
  - rewrite !length_app. simpl. lia.
  - apply logo_in_logo_and_title.
  - apply title_in_logo_and_title.
Qed.

(** C10. Only the first [<body>] is replaced: with the page split at its
    first [<body>], the report is the text before it, the template literal,
    and the text after it as it was, further [<body>] tags included. A page
    without [<body>] is returned as rendered. *)
Theorem replace_first_body_only (data : Data) :
  (∀ pre suf,
     first_occurrence "<body>" (htmlReport data) pre suf →
     handleSummary data !! "summary.html" = Some (pre +:+ replaceValue +:+ suf)) ∧
  (¬ occurs "<body>" (htmlReport data) →
     handleSummary data !! "summary.html" = Some (htmlReport data)).
Proof.
  rewrite summary_html. split.
  - intros pre suf Hfirst. f_equal.
    by apply replace_first_occurrence.
  - intros Hno. f_equal. by apply replace_absent.
Qed.

End handleSummary.

(** C9. The JSON artifact is [JSON.stringify] of the results object that
    was passed in, and the text summary is [textSummary] of it; neither
    depends on how the page is rendered or on what is inserted into it. *)
Theorem json_and_text_untouched
    (Data : Type) (htmlReport htmlReport' : Data → string)
    (JSON_stringify : Data → string)
    (textSummary : Data → TextSummaryOptions → string) (data : Data) :
  let out := handleSummary Data htmlReport JSON_stringify textSummary data in
  let out' := handleSummary Data htmlReport' JSON_stringify textSummary data in
  out !! "summary.json" = Some (JSON_stringify data) ∧
  out !! "stdout" = Some (textSummary data {| indent := " "; enableColors := true |}) ∧
  out' !! "summary.json" = out !! "summary.json" ∧
  out' !! "stdout" = out !! "stdout" ∧
  delete "summary.html" out' = delete "summary.html" out.
Proof.
  cbv zeta. rewrite !summary_json, !summary_stdout. split_and!; [done..|].
  unfold handleSummary. cbv zeta. by rewrite !delete_insert_eq.
Qed.

(** The theorems at a page with two [<body>] tags and at one with none. *)
Lemma html_injection_witness :
  first_occurrence "<body>" (Examples.render Examples.page)
    "<html>" "<h1>K6</h1><body></body></html>" ∧
  ∃ html,
    handleSummary string Examples.render Examples.stringify Examples.summarize
      Examples.page !! "summary.html" = Some html ∧
    html = "<html>" +:+ "<body>" +:+ logo_and_title +:+ "<h1>K6</h1><body></body></html>".
Proof.
  assert (Hfirst : first_occurrence "<body>" (Examples.render Examples.page)
                     "<html>" "<h1>K6</h1><body></body></html>").
  { apply first_occurrence_by_indexOf; reflexivity. }
  split; [exact Hfirst|].
  destruct (html_injection string Examples.render Examples.stringify
              Examples.summarize Examples.page _ _ Hfirst)
    as (html & Hlookup & Hhtml & _).
  exists html. split; assumption.
Defined.

Lemma replace_first_body_only_witness :
  handleSummary string Examples.render Examples.stringify Examples.summarize
    Examples.page !! "summary.html"
  = Some ("<html>" +:+ replaceValue +:+ "<h1>K6</h1><body></body></html>") ∧
  handleSummary string Examples.render Examples.stringify Examples.summarize
    Examples.page_without_body !! "summary.html"
  = Some Examples.page_without_body.
Proof.
  split.
  - apply (proj1 (replace_first_body_only string Examples.render Examples.stringify
                    Examples.summarize Examples.page)).
    apply first_occurrence_by_indexOf; reflexivity.
  - apply (proj2 (replace_first_body_only string Examples.render Examples.stringify
                    Examples.summarize Examples.page_without_body)).
    apply absent_by_indexOf. reflexivity.
Defined.

(** The report for that page, computed: the second [<body>] is still there
    and nothing else has moved. *)
Example handleSummary_page :
  handleSummary string Examples.render Examples.stringify Examples.summarize
    Examples.page
  = {[ "summary.html" := "<html>" +:+ replaceValue +:+ "<h1>K6</h1><body></body></html>";
       "summary.json" := "{}";
       "stdout" := " checks: 0" ]}.
Proof. by vm_compute. Qed.

End HandleSummaryFacts.

(** ** The scripts run against the example servers *)

Module ExampleRuns.
Import K6 Examples.

Example session_is_sent :
  MasterGroupingRoute.sent_cookie_headers (trace tms_server 0 MasterGroupingRoute.default)
    = [Some "ci_sessions=abc123"] ∧
  logs (trace tms_server 0 MasterGroupingRoute.default)
    = [JStr "Berhasil akses grouping_route"].
Proof. by vm_compute. Qed.

Example fallback_is_sent :
  MasterGroupingRoute.sent_cookie_headers (trace cookieless_server tt MasterGroupingRoute.default)
    = [Some "s67pgo29kq2ue8o2rg90onsf8lsa06ud"] ∧
  logs (trace cookieless_server tt MasterGroupingRoute.default)
    = [JStr "Gagal akses grouping_route. Status: 403"; JStr "forbidden"].
Proof. by vm_compute. Qed.

(** [test.js] completes whatever the status of the response. *)
Example test_js_ignores_status :
  responses (trace cookieless_server tt TestJs.default)
    = [{| status := 403; body := JStr "forbidden"; cookies := ∅ |}] ∧
  outcome cookieless_server tt TestJs.default = Completed tt.
Proof. by vm_compute. Qed.

End ExampleRuns.

(** * Further properties of the scripts *)

(** ** test.js, every iteration *)

Module TestJsRuns.
Import K6 K6Facts TestJs.

Lemma trace_test_default (srv : Server) (σ : state srv) :
  trace srv σ default
  = [Sent (GET test_url None) (answer srv σ (GET test_url None)).1; Slept 1].
Proof. unfold trace. by rewrite TestJsFacts.run_test_default. Qed.

(** X1. Whatever the server answers, each iteration of [test.js] sends one
    request, the GET of the test page without parameters, logs nothing,
    pauses once for one second and ends normally; the response is never
    looked at. *)
Theorem test_js_one_get (srv : Server) (σ : state srv) (n : nat) :
  outcome srv σ default = Completed tt ∧
  length (iterate srv σ default n) = n ∧
  Forall (λ evs, requests evs = [GET test_url None] ∧
                 count_posts evs = 0 ∧
                 logs evs = [] ∧
                 sleeps evs = [1%Z])
         (iterate srv σ default n).
Proof.
  split_and!.
  - unfold outcome. by rewrite TestJsFacts.run_test_default.
  - apply length_iterate.
  - apply (Forall_iterate
             (λ evs, requests evs = [GET test_url None] ∧ count_posts evs = 0 ∧
                     logs evs = [] ∧ sleeps evs = [1%Z])).
    intros σ'. by rewrite trace_test_default.
Qed.

End TestJsRuns.

(** ** mastergroupingroute.js: what the requests and the log depend on *)

Module MasterGroupingRouteFrame.
Import K6 K6Facts MasterGroupingRoute MasterGroupingRouteFacts Observations.

(** The header in terms of [cookies[0].value]. *)
Lemma cookieHeader_first_session_value loginRes :
  cookieHeader loginRes =
    Return (match first_session_value loginRes with
            | Some v => "ci_sessions=" +:+ v
            | None => "s67pgo29kq2ue8o2rg90onsf8lsa06ud"
            end).
Proof.
  rewrite cookieHeader_returns. unfold first_session_value.
  by destruct (cookies loginRes !! "ci_sessions") as [[|c cs]|].
Qed.

Lemma requests_default srv σ :
  requests (trace srv σ default) =
    [login_request;
     grouping_route_request
       (match first_session_value (login_response srv σ) with
        | Some v => "ci_sessions=" +:+ v
        | None => "s67pgo29kq2ue8o2rg90onsf8lsa06ud"
        end)].
Proof.
  destruct (trace_default srv σ) as (cookie & Hcookie & _ & ->).
  rewrite cookieHeader_first_session_value in Hcookie.
  injection Hcookie as <-. apply requests_flow.
Qed.

Lemma grouping_route_request_inj c1 c2 :
  grouping_route_request c1 = grouping_route_request c2 → c1 = c2.
Proof.
  intros Heq.
  apply (f_equal (λ req, match req with
                         | GET _ (Some p) => headers p !! "Cookie"
                         | _ => None
                         end)) in Heq.
  unfold grouping_route_request in Heq. cbn [headers] in Heq.
  rewrite !lookup_singleton_eq in Heq. by injection Heq.
Qed.

(** X2. The two requests of an iteration are fixed by the value of the
    first [ci_sessions] cookie of the login response and by nothing else:
    two runs, against any servers, send the same requests exactly when
    their login responses agree on that value (or both lack it). The status
    and body of the login response, the other cookies and the other fields
    of the cookie play no part. *)
Theorem requests_depend_on_first_cookie_value
    (srv1 : Server) (σ1 : state srv1) (srv2 : Server) (σ2 : state srv2) :
  first_session_value (login_response srv1 σ1)
    = first_session_value (login_response srv2 σ2)
  ↔ requests (trace srv1 σ1 default) = requests (trace srv2 σ2 default).
Proof.
  rewrite !requests_default. split.
  - by intros ->.
  - intros Heq. apply (f_equal (λ l : list Request, l !! 1)) in Heq.
    apply (inj Some), grouping_route_request_inj in Heq.
    destruct (first_session_value (login_response srv1 σ1)) as [v1|],
             (first_session_value (login_response srv2 σ2)) as [v2|];
      try done.
    f_equal. by apply (inj (String.app "ci_sessions=")) in Heq.
Qed.

(** X3. The hardcoded session id is sent exactly when the login response
    has no [ci_sessions] cookie, that is, when the jar has no such entry or
    an empty one. *)
Theorem fallback_iff_no_session_cookie (srv : Server) (σ : state srv) :
  sent_cookie_headers (trace srv σ default) = [Some "s67pgo29kq2ue8o2rg90onsf8lsa06ud"]
  ↔ cookies (login_response srv σ) !! "ci_sessions" = None ∨
    cookies (login_response srv σ) !! "ci_sessions" = Some [].
Proof.
  unfold sent_cookie_headers. rewrite requests_default.
  unfold first_session_value. simpl. rewrite lookup_singleton_eq.
  destruct (cookies (login_response srv σ) !! "ci_sessions") as [[|c cs]|];
    simpl; split; try done; auto.
  intros [|]; done.
Qed.

Lemma JStr_inj a b : JStr a = JStr b → a = b.
Proof.
  intros H.
  by apply (f_equal (λ v, match v with JStr s => s | JNull => "" end)) in H.
Qed.

Lemma logs_default srv σ :
  ∃ res,
    last_status (trace srv σ default) = Some (status res) ∧
    logs (trace srv σ default) =
      (if bool_decide (status res = 200%Z)
       then [JStr "Berhasil akses grouping_route"]
       else [JStr ("Gagal akses grouping_route. Status: " +:+ pretty (status res));
             body res]).
Proof.
  destruct (trace_default srv σ) as (cookie & _ & _ & ->). eexists. split.
  - unfold last_status, responses.
    change (omap ?f (Sent ?r1 ?x :: Sent ?r2 ?y :: ?l)) with (x :: y :: omap f l).
    rewrite omap_app. replace (omap _ (Logged <$> _)) with (@nil Response).
    + done.
    + by destruct (bool_decide _).
  - apply logs_flow.
Qed.

(** X4. The first line of console output tells the status of the GET: two
    runs, against any servers, start their output with the same value
    exactly when the two GETs were answered with the same status code. *)
Theorem first_log_tells_status
    (srv1 : Server) (σ1 : state srv1) (srv2 : Server) (σ2 : state srv2) :
  head (logs (trace srv1 σ1 default)) = head (logs (trace srv2 σ2 default))
  ↔ last_status (trace srv1 σ1 default) = last_status (trace srv2 σ2 default).
Proof.
  destruct (logs_default srv1 σ1) as (res1 & -> & ->).
  destruct (logs_default srv2 σ2) as (res2 & -> & ->).
  split.
  - intros Heq. f_equal. revert Heq.
    do 2 case_bool_decide; cbn [head]; intros Heq%(inj Some)%JStr_inj.
    + congruence.
    + discriminate Heq.
    + discriminate Heq.
    + apply (inj (String.app "Gagal akses grouping_route. Status: ")) in Heq.
      by apply (inj pretty) in Heq.
  - intros Heq%(inj Some). rewrite Heq. by case_bool_decide.
Qed.

(** The theorems at the example servers: both logins set a first cookie of
    value [abc123], though with different status, body, domain and path;
    both GETs of the second pair are answered 403. *)
Lemma requests_depend_on_first_cookie_value_witness :
  first_session_value (login_response Examples.tms_server 0)
    = first_session_value (login_response failing_login_server tt) ∧
  requests (trace Examples.tms_server 0 default)
    = requests (trace failing_login_server tt default).
Proof.
  assert (H : first_session_value (login_response Examples.tms_server 0)
              = first_session_value (login_response failing_login_server tt)).
  { by vm_compute. }
  split; [exact H|].
  by apply (proj1 (requests_depend_on_first_cookie_value
                     Examples.tms_server 0 failing_login_server tt)).
Defined.

Lemma fallback_iff_no_session_cookie_witness :
  cookies (login_response Examples.cookieless_server tt) !! "ci_sessions" = None ∧
  sent_cookie_headers (trace Examples.cookieless_server tt default)
    = [Some "s67pgo29kq2ue8o2rg90onsf8lsa06ud"].
Proof.
  assert (H : cookies (login_response Examples.cookieless_server tt) !! "ci_sessions" = None).
  { by vm_compute. }
  split; [exact H|].
  apply (proj2 (fallback_iff_no_session_cookie Examples.cookieless_server tt)).
  left. exact H.
Defined.

Lemma first_log_tells_status_witness :
  last_status (trace Examples.cookieless_server tt default)
    = last_status (trace failing_login_server tt default) ∧
  head (logs (trace Examples.cookieless_server tt default))
    = head (logs (trace failing_login_server tt default)).
Proof.
  assert (H : last_status (trace Examples.cookieless_server tt default)
              = last_status (trace failing_login_server tt default)).
  { by vm_compute. }
  split; [exact H|].
  by apply (proj2 (first_log_tells_status
                     Examples.cookieless_server tt failing_login_server tt)).
Defined.

End MasterGroupingRouteFrame.

(** ** handleSummary.js: where the [<body>] tag ends up *)

Module HandleSummaryPosition.
Import JsString JsStringFacts HandleSummary HandleSummaryFacts.

(** A prefix of a string, cut out of two ways of splitting it. *)
Lemma app_eq_prefix a b c d :
  a +:+ b = c +:+ d → String.length a ≤ String.length c →
  ∃ r, c = a +:+ r ∧ b = r +:+ d.
Proof.
  revert c. induction a as [|x a IH]; intros c Heq Hlen.
  - by exists c.
  - destruct c as [|y c]; simpl in Hlen; [lia|].
    rewrite !app_cons in Heq. injection Heq as -> Heq.
    destruct (IH c Heq) as (r & -> & ->); [lia|]. by exists r.
Qed.

(** Text put in right behind the first occurrence leaves it the first. *)
Lemma first_occurrence_insert pat pre suf x :
  first_occurrence pat (pre +:+ pat +:+ suf) pre suf →
  first_occurrence pat (pre +:+ pat +:+ x +:+ suf) pre (x +:+ suf).
Proof.
  intros [_ Hmin]. split; [done|]. intros pre' suf' Heq.
  destruct (Nat.le_gt_cases (String.length pre) (String.length pre')) as [|Hlt];
    [done|].
  rewrite <-(app_assoc pre pat), <-(app_assoc pre' pat) in Heq.
  symmetry in Heq. apply app_eq_prefix in Heq as (r & Hr & _).
  - specialize (Hmin pre' (r +:+ suf)).
    rewrite <-!app_assoc, <-Hr in Hmin. apply Hmin. by rewrite app_assoc.
  - rewrite !length_app. lia.
Qed.

Section handleSummary.
Variable Data : Type.
Variable htmlReport : Data → string.
Variable JSON_stringify : Data → string.
Variable textSummary : Data → TextSummaryOptions → string.

(** X5. The insertion does not move, add or remove the first [<body>] tag:
    for every rendered page, [<body>] first occurs in the HTML report at
    the position at which it first occurs in the rendered page, and the
    report has no [<body>] when the rendered page has none. *)
Theorem body_tag_stays_in_place (data : Data) :
  ∃ html,
    handleSummary Data htmlReport JSON_stringify textSummary data !! "summary.html"
      = Some html ∧
    indexOf "<body>" html = indexOf "<body>" (htmlReport data).
Proof.
  eexists. split; [apply summary_html|].
  destruct (indexOf "<body>" (htmlReport data)) as [i|] eqn:Hi.
  - apply indexOf_Some in Hi as (pre & suf & Hfirst & <-).
    rewrite (replace_first_occurrence _ body_tag _ _ _ Hfirst replaceValue_literal).
    destruct Hfirst as [Hreport Hmin]. rewrite Hreport in Hmin.
    unfold replaceValue, body_tag. rewrite app_assoc.
    apply (indexOf_first_occurrence _ _ pre (logo_and_title +:+ suf)).
    apply first_occurrence_insert. by split.
  - apply indexOf_None in Hi. rewrite replace_absent by done.
    destruct (indexOf "<body>" (htmlReport data)) eqn:Hi'; [|done].
    destruct Hi. apply occurs_indexOf. by rewrite Hi'.
Qed.

End handleSummary.

End HandleSummaryPosition.

(** ** node_test.go: [isEquals] *)

Module NodeTestFacts.
Import NodeTest.

Lemma bytes_Equal_eq a b : bytes.Equal a b = true ↔ a = b.
Proof.
  revert b. induction a as [|x a IH]; intros [|y b]; simpl; try done.
  rewrite andb_true_iff, IH. split.
  - intros [Hxy ->]. by apply Byte.byte_dec_bl in Hxy as ->.
  - intros [= -> ->]. split; [by apply Byte.byte_dec_lb|done].
Qed.

Section isEquals.
Context {A B C : Type} `{Hasher A, Hasher B, Hasher C}.

(** X6. [isEquals] holds exactly of two nodes with the same hash, that
    hash not being the twenty-four zero bytes. *)
Theorem isEquals_true_iff (a : A) (b : B) :
  isEquals a b = true ↔ Hash a = Hash b ∧ Hash a ≠ empty.
Proof.
  unfold isEquals.
  destruct (bytes.Equal (Hash a) empty) eqn:Ha; simpl.
  { apply bytes_Equal_eq in Ha. split; [done|]. by intros [_ []]. }
  destruct (bytes.Equal (Hash b) empty) eqn:Hb; simpl.
  { apply bytes_Equal_eq in Hb. split; [done|]. intros [Hab []]. by rewrite Hab. }
  rewrite bytes_Equal_eq. split; [|by intros [? _]].
  intros Hab. split; [done|]. intros Hempty.
  apply bytes_Equal_eq in Hempty. by rewrite Hempty in Ha.
Qed.

(** X7. The order of the arguments does not matter, and a node whose hash
    is the twenty-four zero bytes equals nothing, itself included. *)
Theorem isEquals_sym_and_empty (a : A) (b : B) :
  isEquals a b = isEquals b a ∧
  (Hash a = empty → isEquals a b = false ∧ isEquals b a = false ∧ isEquals a a = false).
Proof.
  assert (Hsym : ∀ x y, bytes.Equal x y = bytes.Equal y x).
  { intros x y. destruct (bytes.Equal y x) eqn:Hyx.
    - apply bytes_Equal_eq. by apply bytes_Equal_eq in Hyx.
    - destruct (bytes.Equal x y) eqn:Hxy; [|done].
      apply bytes_Equal_eq in Hxy as ->.
      by rewrite (proj2 (bytes_Equal_eq y y) eq_refl) in Hyx. }
  split.
  - unfold isEquals. rewrite (Hsym (Hash a) (Hash b)). apply (f_equal (λ c : bool, if c then false else _)).
    apply orb_comm.
  - intros Ha. unfold isEquals. rewrite Ha.
    rewrite (proj2 (bytes_Equal_eq empty empty) eq_refl). simpl.
    by rewrite orb_true_r.
Qed.

(** X8. [isEquals] is transitive. *)
Theorem isEquals_trans (a : A) (b : B) (c : C) :
  isEquals a b = true → isEquals b c = true → isEquals a c = true.
Proof.
  unfold isEquals.
  destruct (bytes.Equal (Hash a) empty) eqn:Ha; [done|].
  destruct (bytes.Equal (Hash b) empty) eqn:Hb; [done|].
  destruct (bytes.Equal (Hash c) empty) eqn:Hc; simpl; [done|].
  rewrite !bytes_Equal_eq. congruence.
Qed.

End isEquals.

(** The theorems at a node hash as the index makes them (an object id and
    a file mode) and at the all-zero hash. *)
Lemma isEquals_true_iff_witness :
  (Hash sha = Hash sha ∧ Hash sha ≠ empty) ∧ isEquals sha sha = true.
Proof.
  assert (Hsha : Hash sha = Hash sha ∧ Hash sha ≠ empty).
  { split; [reflexivity|]. intros Heq. discriminate Heq. }
  split; [exact Hsha|].
  exact (proj2 (isEquals_true_iff sha sha) Hsha).
Defined.

Lemma isEquals_sym_and_empty_witness :
  Hash empty = empty ∧
  isEquals empty sha = false ∧ isEquals sha empty = false ∧ isEquals empty empty = false.
Proof.
  split; [reflexivity|].
  exact (proj2 (isEquals_sym_and_empty empty sha) eq_refl).
Defined.

Lemma isEquals_trans_witness :
  isEquals sha sha = true ∧ isEquals sha (Hash sha) = true ∧
  isEquals sha (Hash sha) = true.
Proof.
  split; [reflexivity|]. split; [reflexivity|].
  apply (isEquals_trans sha sha (Hash sha)); reflexivity.
Defined.

End NodeTestFacts.
